(** * go-jsonrpc2: a transport independent JSON-RPC 2.0 server

    A shallow embedding of [server.go] and of the error values of the
    package, with the part of [encoding/json], [context] and [time] that
    the server calls.

    Conventions of the embedding.
    - A [json.RawMessage] never has its bytes inspected by the server: they
      are only handed to [json.Unmarshal] and [json.Marshal].  A raw message
      that holds one well-formed JSON text is therefore represented by the
      JSON value the text denotes (insignificant white space and the choice
      of string escapes are not kept); the nil slice and bytes that are not
      well-formed JSON are two further cases.
    - Go strings are taken to be valid UTF-8 text.
    - Instants are read on a clock whose origin is the moment a request
      enters [serveSingleRequest].  A handler takes the time its reply
      says; what the runtime adds to the steps of the goroutines of
      [handleAsync] is a parameter of the run. *)

From Stdlib Require Import ZArith Ascii String DecimalString DecimalZ.
From stdpp Require Import base option list strings gmap.

Local Open Scope string_scope.
Local Open Scope Z_scope.

(** ** encoding/json *)

Module json.

(** JSON values.  A number keeps its literal, an object keeps its members
    in the order of the text, duplicate names included. *)
#[local] Unset Elimination Schemes.
Inductive value :=
| JNull
| JBool (b : bool)
| JNumber (literal : string)
| JString (s : string)
| JArray (elements : list value)
| JObject (members : list (string * value)).
#[local] Set Elimination Schemes.

(** [json.RawMessage]. *)
Inductive RawMessage :=
| RawNil                 (* the nil slice *)
| RawBad                 (* bytes that are not one well-formed JSON text *)
| Raw (v : value).       (* the text of [v] *)

(** [m == nil] *)
Definition is_nil (m : RawMessage) : bool :=
  match m with RawNil => true | _ => false end.

(** [RawMessage.MarshalJSON] followed by the encoder's validity check:
    nil is written as null, malformed bytes are an error. *)
Definition Marshal_RawMessage (m : RawMessage) : option value :=
  match m with
  | RawNil => Some JNull
  | RawBad => None
  | Raw v => Some v
  end.

(** The encoding of a Go [int]: a decimal literal. *)
Definition Marshal_int (n : Z) : value :=
  JNumber (NilEmpty.string_of_int (Z.to_int n)).

(** [json.Unmarshal(data, &arr)] with [arr []json.RawMessage]: a JSON
    array gives its elements, each kept raw; null leaves [arr] nil, without
    an error; every other value is a type error, and malformed input a
    syntax error. *)
Definition Unmarshal_slice (data : RawMessage) : option (list RawMessage) :=
  match data with
  | Raw (JArray vs) => Some (Raw <$> vs)
  | Raw JNull => Some []
  | _ => None
  end.

(** [json.Marshal(result)] with [result []json.RawMessage]. *)
Definition Marshal_slice (ms : list RawMessage) : option value :=
  JArray <$> mapM Marshal_RawMessage ms.

(** The decoder matches an object key with a struct field when their
    case foldings agree: ASCII letters fold to upper case, and so do the
    two other runes whose simple folding reaches an ASCII letter,
    U+017F (long s, bytes C5 BF) and U+212A (Kelvin sign, bytes E2 84 AA). *)
Definition upper (c : ascii) : ascii :=
  let n := nat_of_ascii c in
  if (97 <=? n)%nat && (n <=? 122)%nat then ascii_of_nat (n - 32) else c.

Fixpoint foldName (key : string) : string :=
  match key with
  | EmptyString => EmptyString
  | String c rest =>
      let ascii_case := String (upper c) (foldName rest) in
      match rest with
      | String d rest' =>
          if Ascii.eqb c "197" && Ascii.eqb d "191"
          then String "S" (foldName rest')
          else
            match rest' with
            | String e rest'' =>
                if Ascii.eqb c "226" && Ascii.eqb d "132" && Ascii.eqb e "170"
                then String "K" (foldName rest'')
                else ascii_case
            | EmptyString => ascii_case
            end
      | EmptyString => ascii_case
      end
  end.

Definition matches_field (key name : string) : bool :=
  String.eqb (foldName key) (foldName name).

End json.

Import json.

(** An [interface{}] a handler returns, seen through what [json.Marshal]
    does with it. *)
Inductive any :=
| any_nil                  (* the nil interface *)
| any_val (v : value)      (* a value that is encoded as [v] *)
| any_bad.                 (* a value the encoder rejects: a channel, a NaN *)

Definition Marshal_any (x : any) : option value :=
  match x with
  | any_nil => Some JNull
  | any_val v => Some v
  | any_bad => None
  end.

(** ** Rpc errors *)

Record rpcError := { ErrorCode : Z; Message : string }.

(** The methods of [rpcError], which make it an [Error]. *)
Definition Error_of (e : rpcError) : string := Message e.
Definition Code_of (e : rpcError) : Z := ErrorCode e.

(** A non-nil Go [error].  The server tells two kinds apart with the type
    assertion [error.(Error)]: the values that have a [Code] method besides
    [Error], given here by what the two methods return, and the others. *)
Inductive error :=
| errorString (msg : string)
| withCode (e : rpcError).

Definition ErrParseError : rpcError :=
  {| ErrorCode := -32700; Message := "Parse error" |}.
Definition ErrInvalidRequest : rpcError :=
  {| ErrorCode := -32600; Message := "Invalid request" |}.
Definition ErrMethodNotFound : rpcError :=
  {| ErrorCode := -32601; Message := "Method not found" |}.
Definition ErrInvalidParams : rpcError :=
  {| ErrorCode := -32602; Message := "Invalid Params" |}.

Definition NewError (code : Z) (msg : string) : rpcError :=
  {| ErrorCode := code; Message := msg |}.

Definition NewInternalError (msg : string) : rpcError :=
  NewError (-32000) msg.

(** ** time and context *)

Definition Duration := Z.          (* [time.Duration]: nanoseconds, signed *)
Definition Time := Z.              (* an instant, in nanoseconds *)

Module time.
(** The clock reading of the dispatcher's own steps. *)
Definition Now : Time := 0.
End time.

Module context.

Record Context := { Deadline : option Time }.

Definition Background : Context := {| Deadline := None |}.

(** [context.WithTimeout(parent, timeout)]: the deadline is
    [time.Now().Add(timeout)], unless the parent's is earlier. *)
Definition WithTimeout (parent : Context) (timeout : Duration) : Context :=
  let d := time.Now + timeout in
  match Deadline parent with
  | Some cur => if cur <? d then parent else {| Deadline := Some d |}
  | None => {| Deadline := Some d |}
  end.

(** [context.DeadlineExceeded]: it has no [Code] method. *)
Definition DeadlineExceeded : error :=
  errorString "context deadline exceeded".

End context.

Import context.

(** ** The server *)

(** What one call of a handler does: the two values it returns and the time
    it takes to return them. *)
Record reply := { result : any; err : option error; took : Duration }.

(** [Handler]: [func(ctx, params) (result interface{}, error error)] *)
Definition Handler : Type := Context -> RawMessage -> reply.

Record server := { handlers : gmap string Handler; timeout : Duration }.

Record request :=
  { ID : RawMessage; Version : string; Method : string; Params : RawMessage }.

(** [request{}] *)
Definition zero_request : request :=
  {| ID := RawNil; Version := ""; Method := ""; Params := RawNil |}.

Module response.
Record t :=
  { ID : RawMessage; Version : string; Result : any; Error : option rpcError }.
End response.
Abbreviation response := response.t.

Definition NewServer : server := {| handlers := ∅; timeout := 0 |}.

Definition SetDefaultTimeout (s : server) (t : Duration) : server :=
  {| handlers := handlers s; timeout := t |}.

Definition DefineMethod (s : server) (method : string) (h : Handler) : server :=
  {| handlers := <[method := h]> (handlers s); timeout := timeout s |}.

(** *** Decoding a request *)

Inductive field := field_id | field_jsonrpc | field_method | field_params.

(** The field of [request] an object key is decoded into, from the struct
    tags. *)
Definition field_of_key (key : string) : option field :=
  if matches_field key "id" then Some field_id
  else if matches_field key "jsonrpc" then Some field_jsonrpc
  else if matches_field key "method" then Some field_method
  else if matches_field key "params" then Some field_params
  else None.

(** A JSON value decoded into a [string] field: a string is stored, null
    leaves the field as it is, anything else is a type error. *)
Definition decode_string (old : string) (v : value) : option string :=
  match v with
  | JString s => Some s
  | JNull => Some old
  | _ => None
  end.

(** One member of the object; a [json.RawMessage] field takes any value,
    null included, as its text.  A member with an unknown key is skipped. *)
Definition decode_member (r : request) (m : string * value) : option request :=
  match field_of_key m.1 with
  | Some field_id =>
      Some {| ID := Raw m.2; Version := Version r;
              Method := Method r; Params := Params r |}
  | Some field_jsonrpc =>
      s ← decode_string (Version r) m.2;
      Some {| ID := ID r; Version := s; Method := Method r; Params := Params r |}
  | Some field_method =>
      s ← decode_string (Method r) m.2;
      Some {| ID := ID r; Version := Version r; Method := s; Params := Params r |}
  | Some field_params =>
      Some {| ID := ID r; Version := Version r;
              Method := Method r; Params := Raw m.2 |}
  | None => Some r
  end.

(** [json.Unmarshal(data, r)] with [r = &request{}]: the members of an
    object are decoded in order, a later one overwriting an earlier one;
    null is accepted and changes nothing; [None] is a returned error. *)
Definition Unmarshal_request (data : RawMessage) : option request :=
  match data with
  | Raw (JObject ms) =>
      foldl (fun acc m => r ← acc; decode_member r m) (Some zero_request) ms
  | Raw JNull => Some zero_request
  | _ => None
  end.

(** *** Encoding a response *)

(** The encoding of the [*rpcError] held by the [Error] field. *)
Definition Marshal_rpcError (e : rpcError) : value :=
  JObject [("code", Marshal_int (ErrorCode e)); ("message", JString (Message e))].

(** [json.Marshal(r)] with [r response]: the fields in the order of the
    struct, under the keys of their tags; [result] and [error] are tagged
    omitempty and are left out when the interface they hold is nil. *)
Definition Marshal_response (r : response) : option value :=
  id ← Marshal_RawMessage (response.ID r);
  res ← match response.Result r with
        | any_nil => Some []
        | x => v ← Marshal_any x; Some [("result", v)]
        end;
  Some (JObject ([("id", id); ("jsonrpc", JString (response.Version r))]
                 ++ res
                 ++ match response.Error r with
                    | None => []
                    | Some e => [("error", Marshal_rpcError e)]
                    end)%list).

(** *** Serving *)

(** [validateRequest]; [None] is the nil error. *)
Definition validateRequest (req : request) : option error :=
  if negb (String.eqb (Version req) "2.0") then Some (withCode ErrInvalidRequest)
  else if String.eqb (Method req) "" then Some (withCode ErrInvalidRequest)
  else None.

(** The [response] that [makeResponseJson] builds before it encodes it. *)
Definition makeResponse (req : request) (result : any) (error : option error)
  : response :=
  {| response.ID := ID req;
     response.Version := "2.0";
     response.Result := result;
     response.Error :=
       match error with
       | Some (withCode e) => Some (NewError (Code_of e) (Error_of e))
       | Some (errorString msg) => Some (NewInternalError msg)
       | None => None
       end |}.

(** [makeResponseJson]; the error of [json.Marshal] is dropped, and the
    nil slice it comes with is what is returned. *)
Definition makeResponseJson (req : request) (result : any) (error : option error)
  : RawMessage :=
  match validateRequest req, ID req with
  | None, RawNil => RawNil            (* if notification request *)
  | _, _ =>
      match Marshal_response (makeResponse req result error) with
      | Some v => Raw v
      | None => RawNil
      end
  end.

(** What the runtime adds to one run of [handleAsync] under a deadline:
    the time that passes, in each of the three goroutines, before and
    between the steps that touch the shared variables [resp] and [err].
    No delay of a real run is negative. *)
Record delays := {
  timer_start : Duration;    (* until the timer goroutine reads the clock *)
  timer_resume : Duration;   (* from the end of its sleep to its write of err *)
  handler_run : Duration;    (* added to the handler's own time, until the
                                handler goroutine writes resp *)
  handler_gap : Duration;    (* from its write of resp to its write of err *)
  caller_resume : Duration;  (* from the receive to the caller's read of resp *)
  caller_gap : Duration      (* from its read of resp to its read of err *)
}.

(** [handleAsync].  With no deadline the handler is called in place.  With
    one, the named results [resp] and [err] start nil and are shared by
    three goroutines: the timer goroutine writes [err] and sends; the
    handler goroutine writes [resp], then [err], and sends; the caller
    receives the first send, then reads [resp] and [err].  Nothing but the
    channel orders these steps, and the goroutine whose send is not
    received goes on writing: each read returns the last value written
    before it.  The definition places every step at its instant. *)
Definition handleAsync (dl : delays) (ctx : Context) (h : Handler)
    (params : RawMessage) : any * option error :=
  match Deadline ctx with
  | None => let r := h ctx params in (result r, err r)
  | Some deadline =>
      (* timeout timer *)
      let now := time.Now + timer_start dl in
      let timeout := deadline - now in
      let woken := now + (if 0 <? timeout then timeout else 0) in
      let timer_err := woken + timer_resume dl in
      (* main handler *)
      let r := h ctx params in
      let handler_resp := time.Now + handler_run dl + took r in
      let handler_err := handler_resp + handler_gap dl in
      (* wait for 1 of the goroutine finish *)
      let received := Z.min timer_err handler_err in
      let read_resp := received + caller_resume dl in
      let read_err := read_resp + caller_gap dl in
      (if handler_resp <=? read_resp then result r else any_nil,
       if read_err <? timer_err then err r
       else if read_err <? handler_err then Some DeadlineExceeded
       else if timer_err <? handler_err then err r
       else Some DeadlineExceeded)
  end.

Definition serveSingleRequest (s : server) (dl : delays)
    (jsonString : RawMessage) : RawMessage :=
  match Unmarshal_request jsonString with
  | None => makeResponseJson zero_request any_nil (Some (withCode ErrParseError))
  | Some r =>
      match validateRequest r with
      | Some e => makeResponseJson r any_nil (Some e)
      | None =>
          match handlers s !! Method r with
          | None => makeResponseJson r any_nil (Some (withCode ErrMethodNotFound))
          | Some h =>
              let ctx := if 0 <? timeout s
                         then WithTimeout Background (timeout s)
                         else Background in
              let '(result, err) := handleAsync dl ctx h (Params r) in
              makeResponseJson r result err
          end
      end
  end.

(** How the runtime runs the goroutines of one [ServeRequest]: the order in
    which the goroutines of a batch finish, by index, and for each index the
    delays of its [handleAsync]. *)
Record schedule := { finish_order : list nat; delays_of : nat -> delays }.

(** One goroutine of [serveBatchRequest] finishing: [rsps[i] = ...]. *)
Definition finish (s : server) (sch : schedule) (rs : list RawMessage)
    (rsps : list RawMessage) (i : nat) : list RawMessage :=
  match rs !! i with
  | Some raw => <[i := serveSingleRequest s (delays_of sch i) raw]> rsps
  | None => rsps
  end.

(** The loop that constructs the response of a batch. *)
Definition collect (rsps : list RawMessage) : list RawMessage :=
  foldl (fun result rsp => if is_nil rsp then result else (result ++ [rsp])%list) [] rsps.

Definition serveBatchRequest (s : server) (sch : schedule) (rs : list RawMessage)
  : RawMessage :=
  let rsps := replicate (length rs) RawNil in
  let rsps := foldl (finish s sch rs) rsps (finish_order sch) in
  let result := collect rsps in
  if (length result =? 0)%nat then RawNil
  else
    match Marshal_slice result with
    | Some v => Raw v
    | None => RawNil
    end.

Definition ServeRequest (s : server) (sch : schedule) (jsonString : RawMessage)
  : RawMessage :=
  match Unmarshal_slice jsonString with
  | Some arr =>
      if (length arr =? 0)%nat
      then makeResponseJson zero_request any_nil (Some (withCode ErrInvalidRequest))
      else serveBatchRequest s sch arr
  | None => serveSingleRequest s (delays_of sch 0) jsonString
  end.

(** ** What responses look like on the wire *)

(** An id as a response writes it: a nil id is written null. *)
Definition id_value (id : RawMessage) : value :=
  match id with Raw v => v | _ => JNull end.

Definition error_object (id : value) (code : Z) (message : string) : value :=
  JObject [("id", id); ("jsonrpc", JString "2.0");
           ("error", JObject [("code", Marshal_int code);
                              ("message", JString message)])].

Definition result_object (id : value) (v : value) : value :=
  JObject [("id", id); ("jsonrpc", JString "2.0"); ("result", v)].

(** The value under the first member named [key]. *)
Fixpoint member (key : string) (ms : list (string * value)) : option value :=
  match ms with
  | [] => None
  | (k, v) :: ms' => if String.eqb k key then Some v else member key ms'
  end.

Definition members (v : value) : list (string * value) :=
  match v with JObject ms => ms | _ => [] end.

(** The JSON value a raw message holds, when it holds one. *)
Definition raw_value (m : RawMessage) : option value :=
  match m with Raw v => Some v | _ => None end.

(** ** Reading a response back *)

Definition as_string (v : value) : option string :=
  match v with JString s => Some s | _ => None end.

Definition as_int (v : value) : option Z :=
  match v with
  | JNumber literal => Z.of_int <$> NilEmpty.int_of_string literal
  | _ => None
  end.

Definition Unmarshal_rpcError (v : value) : option rpcError :=
  match v with
  | JObject ms =>
      code ← member "code" ms ≫= as_int;
      message ← member "message" ms ≫= as_string;
      Some {| ErrorCode := code; Message := message |}
  | _ => None
  end.

(** Modelled from the spec: the repository encodes responses and has no
    decoder for them.  This one reads the wire format the spec gives for a
    Response, a JSON object with [id], [jsonrpc], and [result] (any JSON
    value) or [error] (an object with an integer [code] and a string
    [message]).  The id is kept as the JSON text found, a member that is
    not there leaves its field nil. *)
Definition Unmarshal_response (v : value) : option response :=
  match v with
  | JObject ms =>
      id ← member "id" ms;
      version ← member "jsonrpc" ms ≫= as_string;
      error ← match member "error" ms with
              | Some e => Some <$> Unmarshal_rpcError e
              | None => Some None
              end;
      Some {| response.ID := Raw id;
              response.Version := version;
              response.Result := match member "result" ms with
                                 | Some r => any_val r
                                 | None => any_nil
                                 end;
              response.Error := error |}
  | _ => None
  end.

(** The response as it is read back: the id the encoder writes for a nil
    id is null. *)
Definition as_written (r : response) : response :=
  {| response.ID := Raw (id_value (response.ID r));
     response.Version := response.Version r;
     response.Result := response.Result r;
     response.Error := response.Error r |}.

(** ** Handlers and payloads of the examples *)

(** The handler of [main.go]: [return params, nil]. *)
Definition echo : Handler := fun _ params =>
  {| result := match Marshal_RawMessage params with
               | Some v => any_val v
               | None => any_bad
               end;
     err := None; took := 0 |}.

(** A handler that returns "ok" after the time [d], whatever its params. *)
Definition sleeps (d : Duration) : Handler := fun _ _ =>
  {| result := any_val (JString "ok"); err := None; took := d |}.

(** A handler with nothing to return: [return nil, nil]. *)
Definition silent : Handler := fun _ _ =>
  {| result := any_nil; err := None; took := 0 |}.

(** A handler that returns a value along with its error. *)
Definition partial : Handler := fun _ _ =>
  {| result := any_val (JNumber "0");
     err := Some (errorString "half done"); took := 0 |}.

(** A handler that fails with an error of its own code, as the README
    shows. *)
Definition custom : Handler := fun _ _ =>
  {| result := any_nil;
     err := Some (withCode (NewError (-32001) "My Custom Error")); took := 0 |}.

(** A server with a timeout of 5 ms, a method that takes 100 ms and one
    that takes 1 ms. *)
Definition example_server : server :=
  DefineMethod
    (DefineMethod
       (DefineMethod
          (DefineMethod
             (DefineMethod
                (DefineMethod (SetDefaultTimeout NewServer 5000000) "echo" echo)
                "slow" (sleeps 100000000))
             "fast" (sleeps 1000000))
          "silent" silent)
       "partial" partial)
    "custom" custom.

(** [{"jsonrpc": "2.0", "method": method, "params": params, "id": id}] *)
Definition call (method : string) (params id : value) : value :=
  JObject [("jsonrpc", JString "2.0"); ("method", JString method);
           ("params", params); ("id", id)].

(** [{"jsonrpc": "2.0", "method": method, "params": params}] *)
Definition notification (method : string) (params : value) : value :=
  JObject [("jsonrpc", JString "2.0"); ("method", JString method);
           ("params", params)].

(** A runtime that adds no time, and one that adds a microsecond to each
    step. *)
Definition prompt : delays :=
  {| timer_start := 0; timer_resume := 0; handler_run := 0; handler_gap := 0;
     caller_resume := 0; caller_gap := 0 |}.

Definition sluggish : delays :=
  {| timer_start := 1000; timer_resume := 1000; handler_run := 1000;
     handler_gap := 1000; caller_resume := 1000; caller_gap := 1000 |}.

(** A runtime on which the caller is back 2 µs after the send it receives,
    and nothing else takes time. *)
Definition late_read : delays :=
  {| timer_start := 0; timer_resume := 0; handler_run := 0; handler_gap := 0;
     caller_resume := 2000; caller_gap := 0 |}.

(** A server with a timeout of 5 ms and one method, which takes [d]. *)
Definition worker (d : Duration) : server :=
  DefineMethod (SetDefaultTimeout NewServer 5000000) "work" (sleeps d).

(** Goroutines that finish in the order they were started, on the prompt
    runtime; and in the reverse order, on the sluggish one. *)
Definition in_order (n : nat) : schedule :=
  {| finish_order := seq 0 n; delays_of := fun _ => prompt |}.

Definition last_first (n : nat) : schedule :=
  {| finish_order := reverse (seq 0 n); delays_of := fun _ => sluggish |}.

(** * Properties *)

(** ** The decoders *)

Lemma decode_failed ms :
  foldl (fun acc m => r ← acc; decode_member r m) None ms = None.
Proof. induction ms as [|m ms IH]; simpl; auto. Qed.

Lemma decode_member_ID r m r' :
  decode_member r m = Some r' -> ID r <> RawBad -> ID r' <> RawBad.
Proof.
  unfold decode_member. intros H Hr.
  destruct (field_of_key m.1) as [[]|]; simplify_option_eq; simpl; done.
Qed.

Lemma decode_members_ID ms : forall r0 r,
  foldl (fun acc m => r ← acc; decode_member r m) (Some r0) ms = Some r ->
  ID r0 <> RawBad -> ID r <> RawBad.
Proof.
  induction ms as [|m ms IH]; simpl; intros r0 r H Hr0.
  - by inversion H; subst.
  - destruct (decode_member r0 m) as [r1|] eqn:E.
    + eapply IH; [exact H|]. eapply decode_member_ID; eauto.
    + by rewrite decode_failed in H.
Qed.

(** A decoded request holds an id that is nil or well-formed JSON. *)
Lemma Unmarshal_request_ID data r :
  Unmarshal_request data = Some r -> ID r <> RawBad.
Proof.
  destruct data as [| |[]]; simpl; try done.
  - by intros [= <-].
  - intros H. by eapply decode_members_ID.
Qed.

(** Only null decodes both as a slice and as a request, and it gives the
    empty slice and the zero request. *)
Lemma Unmarshal_slice_request data arr r :
  Unmarshal_slice data = Some arr -> Unmarshal_request data = Some r ->
  arr = [] /\ r = zero_request.
Proof.
  destruct data as [| |[]]; simpl; try done.
  by intros [= <-] [= <-].
Qed.

Lemma zero_request_invalid :
  validateRequest zero_request = Some (withCode ErrInvalidRequest).
Proof. reflexivity. Qed.

Lemma validateRequest_error req e :
  validateRequest req = Some e -> e = withCode ErrInvalidRequest.
Proof.
  unfold validateRequest.
  destruct (negb _); [by intros [= <-]|].
  destruct (String.eqb _ _); [by intros [= <-]|done].
Qed.

(** ** Encoding *)

Lemma Marshal_error_response req e :
  ID req <> RawBad ->
  Marshal_response (makeResponse req any_nil (Some e)) =
    Some (match e with
          | withCode c => error_object (id_value (ID req)) (ErrorCode c) (Message c)
          | errorString msg => error_object (id_value (ID req)) (-32000) msg
          end).
Proof.
  intros Hbad. unfold Marshal_response, makeResponse; simpl.
  destruct (ID req), e; done.
Qed.

(** A request that is not a notification gets its error written out. *)
Lemma makeResponseJson_error req e :
  ID req <> RawBad ->
  is_Some (validateRequest req) \/ ID req <> RawNil ->
  makeResponseJson req any_nil (Some e) =
    Raw (match e with
         | withCode c => error_object (id_value (ID req)) (ErrorCode c) (Message c)
         | errorString msg => error_object (id_value (ID req)) (-32000) msg
         end).
Proof.
  intros Hbad Hn. unfold makeResponseJson.
  rewrite Marshal_error_response by done.
  destruct (validateRequest req), (ID req); try done.
  destruct Hn as [[? [=]]|?]; done.
Qed.

(** [makeResponseJson] returns nil or well-formed JSON. *)
Lemma makeResponseJson_not_bad req res e : makeResponseJson req res e <> RawBad.
Proof.
  unfold makeResponseJson.
  destruct (validateRequest req), (ID req),
    (Marshal_response (makeResponse req res e)); done.
Qed.

Lemma makeResponseJson_notification req res e :
  validateRequest req = None -> ID req = RawNil ->
  makeResponseJson req res e = RawNil.
Proof. unfold makeResponseJson. by intros -> ->. Qed.

Lemma serveSingleRequest_not_bad s dl data :
  serveSingleRequest s dl data <> RawBad.
Proof.
  unfold serveSingleRequest.
  destruct (Unmarshal_request data) as [r|]; [|apply makeResponseJson_not_bad].
  destruct (validateRequest r); [apply makeResponseJson_not_bad|].
  destruct (handlers s !! Method r); [|apply makeResponseJson_not_bad].
  destruct (handleAsync _ _ _ _). apply makeResponseJson_not_bad.
Qed.

(** ** The repository's tests and README, replayed *)

Example echo_with_id :
  ServeRequest example_server (in_order 0)
      (Raw (call "echo" (JString "hi") (JNumber "1"))) =
    Raw (result_object (JNumber "1") (JString "hi")).
Proof. vm_compute. reflexivity. Qed.

Example echo_notification :
  ServeRequest example_server (in_order 0)
      (Raw (notification "echo" (JString "hi"))) = RawNil.
Proof. vm_compute. reflexivity. Qed.

Example method_not_defined :
  ServeRequest example_server (in_order 0)
      (Raw (call "no way" (JString "hi") (JNumber "1"))) =
    Raw (error_object (JNumber "1") (-32601) "Method not found").
Proof. vm_compute. reflexivity. Qed.

Example invalid_json :
  ServeRequest example_server (in_order 0) RawBad =
    Raw (error_object JNull (-32700) "Parse error").
Proof. vm_compute. reflexivity. Qed.

Example invalid_request :
  ServeRequest example_server (in_order 0) (Raw (JObject [("a", JNumber "1")])) =
    Raw (error_object JNull (-32600) "Invalid request").
Proof. vm_compute. reflexivity. Qed.

Example invalid_request_individually :
  ServeRequest example_server (last_first 3)
      (Raw (JArray [JNumber "1";
                    JObject [("method", JString "echo")];
                    call "echo" (JString "hi") (JString "1")])) =
    Raw (JArray [error_object JNull (-32700) "Parse error";
                 error_object JNull (-32600) "Invalid request";
                 result_object (JString "1") (JString "hi")]).
Proof. vm_compute. reflexivity. Qed.

Example custom_error :
  ServeRequest example_server (in_order 0)
      (Raw (call "custom" JNull (JNumber "1"))) =
    Raw (error_object (JNumber "1") (-32001) "My Custom Error").
Proof. vm_compute. reflexivity. Qed.

(** ** Requests that fail validation *)

(** The answer to a payload that decodes into a request which fails
    validation, whether it comes as a single request or as null. *)
Lemma ServeRequest_invalid s sch data r :
  Unmarshal_request data = Some r ->
  is_Some (validateRequest r) ->
  ServeRequest s sch data =
    Raw (error_object (id_value (ID r)) (-32600) "Invalid request").
Proof.
  intros Hr [e He]. unfold ServeRequest.
  destruct (Unmarshal_slice data) as [arr|] eqn:Harr.
  - destruct (Unmarshal_slice_request _ _ _ Harr Hr) as [-> ->]. reflexivity.
  - unfold serveSingleRequest. rewrite Hr, He.
    rewrite (validateRequest_error _ _ He).
    rewrite makeResponseJson_error; [done| |].
    + by eapply Unmarshal_request_ID.
    + left. by rewrite He.
Qed.

(** C1, as the code has it.  A payload that decodes into a request which
    fails validation (a version other than "2.0", or an empty method) is
    answered with the error -32600 "Invalid request", and the id of the
    response is the id of the payload when it has one; it is null when the
    payload has none. *)
Theorem invalid_request_keeps_id s sch data r :
  Unmarshal_request data = Some r ->
  is_Some (validateRequest r) ->
  ServeRequest s sch data =
    Raw (error_object (id_value (ID r)) (-32600) "Invalid request") /\
  (ID r = RawNil ->
   ServeRequest s sch data = Raw (error_object JNull (-32600) "Invalid request")).
Proof.
  intros Hr Hv. rewrite (ServeRequest_invalid _ _ _ _ Hr Hv).
  split; [done|]. by intros ->.
Qed.

Lemma invalid_request_keeps_id_witness :
  let data := Raw (JObject [("method", JString "echo"); ("id", JString "a")]) in
  let r := {| ID := Raw (JString "a"); Version := ""; Method := "echo";
              Params := RawNil |} in
  Unmarshal_request data = Some r /\
  is_Some (validateRequest r) /\
  ServeRequest example_server (in_order 0) data =
    Raw (error_object (JString "a") (-32600) "Invalid request").
Proof.
  intros data r.
  assert (Hr : Unmarshal_request data = Some r) by reflexivity.
  assert (Hv : is_Some (validateRequest r)) by (vm_compute; eauto).
  split; [exact Hr|]. split; [exact Hv|].
  exact (proj1 (invalid_request_keeps_id example_server (in_order 0) data r Hr Hv)).
Defined.

(** C1, as the specification states it, fails: a request with version "1.0" and
    the id 7 decodes, fails validation, and is answered with the id 7, not
    with null. *)
Lemma invalid_request_id_not_null :
  let data := Raw (JObject [("jsonrpc", JString "1.0");
                            ("method", JString "echo");
                            ("id", JNumber "7")]) in
  let r := {| ID := Raw (JNumber "7"); Version := "1.0"; Method := "echo";
              Params := RawNil |} in
  Unmarshal_request data = Some r /\
  validateRequest r = Some (withCode ErrInvalidRequest) /\
  ServeRequest example_server (in_order 0) data =
    Raw (error_object (JNumber "7") (-32600) "Invalid request") /\
  ServeRequest example_server (in_order 0) data <>
    Raw (error_object JNull (-32600) "Invalid request").
Proof. vm_compute. repeat split; discriminate. Qed.

(** ** Notifications *)

(** A valid request is an object, so it does not decode as a batch. *)
Lemma valid_request_not_batch data r :
  Unmarshal_request data = Some r -> validateRequest r = None ->
  Unmarshal_slice data = None.
Proof.
  intros Hr Hv. destruct (Unmarshal_slice data) as [arr|] eqn:Harr; [|done].
  destruct (Unmarshal_slice_request _ _ _ Harr Hr) as [_ ->]. done.
Qed.

(** A valid request with no id is never answered, whatever becomes of the
    call. *)
Lemma serveSingleRequest_notification s dl data r :
  Unmarshal_request data = Some r -> validateRequest r = None ->
  ID r = RawNil ->
  serveSingleRequest s dl data = RawNil.
Proof.
  intros Hr Hv Hid. unfold serveSingleRequest. rewrite Hr, Hv.
  destruct (handlers s !! Method r).
  - destruct (handleAsync _ _ _ _). by apply makeResponseJson_notification.
  - by apply makeResponseJson_notification.
Qed.

(** C2.  A payload that decodes into a valid request with no id gets no
    response, for every server (whatever handler is registered under the
    method, if any, and whatever the timeout) and every schedule; a payload
    that decodes into a request which fails validation always gets one. *)
Theorem notification_suppressed s sch data r :
  Unmarshal_request data = Some r ->
  (validateRequest r = None -> ID r = RawNil ->
   ServeRequest s sch data = RawNil) /\
  (is_Some (validateRequest r) -> ServeRequest s sch data <> RawNil).
Proof.
  intros Hr. split.
  - intros Hv Hid. unfold ServeRequest.
    rewrite (valid_request_not_batch _ _ Hr Hv).
    by eapply serveSingleRequest_notification.
  - intros Hv. by rewrite (ServeRequest_invalid _ _ _ _ Hr Hv).
Qed.

Lemma notification_suppressed_witness :
  let data := Raw (notification "slow" (JNumber "100")) in
  let r := {| ID := RawNil; Version := "2.0"; Method := "slow";
              Params := Raw (JNumber "100") |} in
  let data' := Raw (JObject [("method", JString "slow")]) in
  let r' := {| ID := RawNil; Version := ""; Method := "slow";
               Params := RawNil |} in
  (Unmarshal_request data = Some r /\
   validateRequest r = None /\ ID r = RawNil /\
   ServeRequest example_server (in_order 0) data = RawNil) /\
  (Unmarshal_request data' = Some r' /\
   is_Some (validateRequest r') /\
   ServeRequest example_server (in_order 0) data' <> RawNil).
Proof.
  intros data r data' r'.
  assert (Hr : Unmarshal_request data = Some r) by reflexivity.
  assert (Hr' : Unmarshal_request data' = Some r') by reflexivity.
  assert (Hv' : is_Some (validateRequest r')) by (vm_compute; eauto).
  split.
  - split; [exact Hr|]. split; [reflexivity|]. split; [reflexivity|].
    exact (proj1 (notification_suppressed example_server (in_order 0) data r Hr)
             eq_refl eq_refl).
  - split; [exact Hr'|]. split; [exact Hv'|].
    exact (proj2 (notification_suppressed example_server (in_order 0) data' r' Hr')
             Hv').
Defined.

(** ** The empty batch *)

(** C6.  A payload that decodes as an array with no element is answered
    with one object, not an array: the error -32600 "Invalid request" with
    the id null. *)
Theorem empty_batch_invalid s sch data :
  Unmarshal_slice data = Some [] ->
  ServeRequest s sch data =
    Raw (error_object JNull (-32600) "Invalid request").
Proof. intros H. unfold ServeRequest. rewrite H. reflexivity. Qed.

Lemma empty_batch_invalid_witness :
  Unmarshal_slice (Raw (JArray [])) = Some [] /\
  ServeRequest example_server (in_order 0) (Raw (JArray [])) =
    Raw (error_object JNull (-32600) "Invalid request").
Proof.
  split; [reflexivity|].
  exact (empty_batch_invalid example_server (in_order 0) (Raw (JArray [])) eq_refl).
Defined.

(** ** The race between the handler and the timer *)

Lemma handleAsync_no_deadline dl ctx h params :
  Deadline ctx = None ->
  handleAsync dl ctx h params = (result (h ctx params), err (h ctx params)).
Proof. unfold handleAsync. by intros ->. Qed.

(** On a runtime that adds no time the deadline decides: a handler that
    returns before it has its own outcome returned, a handler that returns
    after it is answered for by the timer. *)
Lemma handleAsync_prompt ctx h params deadline :
  Deadline ctx = Some deadline -> 0 < deadline ->
  (took (h ctx params) < deadline ->
   handleAsync prompt ctx h params = (result (h ctx params), err (h ctx params))) /\
  (deadline < took (h ctx params) ->
   handleAsync prompt ctx h params = (any_nil, Some DeadlineExceeded)).
Proof.
  unfold handleAsync, prompt, time.Now. simpl. intros -> Hd.
  replace (deadline - (0 + 0)) with deadline by lia.
  destruct (Z.ltb_spec 0 deadline); [|lia].
  set (t := took (h ctx params)).
  split; intros Ht.
  - rewrite Z.min_r by lia.
    destruct (Z.leb_spec (0 + 0 + t) (0 + 0 + t + 0 + 0)); [|lia].
    by destruct (Z.ltb_spec (0 + 0 + t + 0 + 0 + 0) (0 + 0 + deadline + 0)); [|lia].
  - rewrite Z.min_l by lia.
    destruct (Z.leb_spec (0 + 0 + t) (0 + 0 + deadline + 0 + 0)); [lia|].
    destruct (Z.ltb_spec (0 + 0 + deadline + 0 + 0 + 0) (0 + 0 + deadline + 0));
      [lia|].
    by destruct (Z.ltb_spec (0 + 0 + deadline + 0 + 0 + 0) (0 + 0 + t + 0)); [|lia].
Qed.

(** The response to a valid request whose method is registered. *)
Lemma serveSingleRequest_call s dl data r h :
  Unmarshal_request data = Some r -> validateRequest r = None ->
  handlers s !! Method r = Some h ->
  serveSingleRequest s dl data =
    let ctx := if 0 <? timeout s then WithTimeout Background (timeout s)
               else Background in
    let '(result, err) := handleAsync dl ctx h (Params r) in
    makeResponseJson r result err.
Proof. intros Hr Hv Hh. unfold serveSingleRequest. by rewrite Hr, Hv, Hh. Qed.

(** With no timeout set the handler is called in place, and the response
    is made from its own result and error. *)
Lemma serveSingleRequest_no_timeout s dl data r h :
  Unmarshal_request data = Some r -> validateRequest r = None ->
  handlers s !! Method r = Some h -> timeout s <= 0 ->
  serveSingleRequest s dl data =
    let a := h Background (Params r) in
    makeResponseJson r (result a) (err a).
Proof.
  intros Hr Hv Hh Ht. rewrite (serveSingleRequest_call _ _ _ _ _ Hr Hv Hh).
  cbv zeta. destruct (Z.ltb_spec 0 (timeout s)); [lia|].
  by rewrite handleAsync_no_deadline.
Qed.

(** C3, at the inputs where it fails.  Under a timeout of 5 ms, on a
    runtime that brings the caller back 2 µs after the send it receives: a
    handler that returns 1 µs before the deadline is answered for by its
    result together with the error -32000 "context deadline exceeded",
    since the timer goroutine has written [err] before the caller reads it;
    and a handler that returns 1 µs after the timer has fired has its own
    result returned with no error, since the handler goroutine has written
    [resp] and [err] before the caller reads them. *)
Theorem timeout_race_shared_results :
  let data := Raw (call "work" JNull (JNumber "1")) in
  (took (sleeps 4999000 Background RawNil) < timeout (worker 4999000) /\
   serveSingleRequest (worker 4999000) late_read data =
     Raw (JObject [("id", JNumber "1"); ("jsonrpc", JString "2.0");
                   ("result", JString "ok");
                   ("error", JObject [("code", Marshal_int (-32000));
                                      ("message",
                                       JString "context deadline exceeded")])])) /\
  (timeout (worker 5001000) < took (sleeps 5001000 Background RawNil) /\
   serveSingleRequest (worker 5001000) late_read data =
     Raw (result_object (JNumber "1") (JString "ok"))).
Proof. repeat split; vm_compute; reflexivity. Qed.

(** ** A negative timeout *)

Lemma serveSingleRequest_timeout_le_0 s d dl data :
  d <= 0 ->
  serveSingleRequest (SetDefaultTimeout s d) dl data =
  serveSingleRequest (SetDefaultTimeout s 0) dl data.
Proof.
  intros Hd. unfold serveSingleRequest. simpl.
  by destruct (Z.ltb_spec 0 d); [lia|].
Qed.

Lemma finish_timeout_le_0 s d sch rs order : forall rsps,
  d <= 0 ->
  foldl (finish (SetDefaultTimeout s d) sch rs) rsps order =
  foldl (finish (SetDefaultTimeout s 0) sch rs) rsps order.
Proof.
  induction order as [|i order IH]; intros rsps Hd; [done|]. simpl.
  rewrite IH by done. f_equal. unfold finish.
  destruct (rs !! i); [|done]. by rewrite serveSingleRequest_timeout_le_0.
Qed.

(** C10.  After [SetDefaultTimeout] with a negative duration the server
    answers every payload as it does with the timeout zero, and a call runs
    with no deadline: its response is made from the handler's own result
    and error. *)
Theorem negative_timeout_unbounded s d :
  d < 0 ->
  (forall sch data,
     ServeRequest (SetDefaultTimeout s d) sch data =
     ServeRequest (SetDefaultTimeout s 0) sch data) /\
  (forall dl data r h,
     Unmarshal_request data = Some r -> validateRequest r = None ->
     handlers s !! Method r = Some h ->
     let a := h Background (Params r) in
     serveSingleRequest (SetDefaultTimeout s d) dl data =
       makeResponseJson r (result a) (err a)).
Proof.
  intros Hd. split.
  - intros sch data. unfold ServeRequest.
    destruct (Unmarshal_slice data) as [arr|].
    + destruct (length arr =? 0)%nat; [done|]. unfold serveBatchRequest.
      by rewrite finish_timeout_le_0 by lia.
    + apply serveSingleRequest_timeout_le_0. lia.
  - intros dl data r h Hr Hv Hh.
    rewrite (serveSingleRequest_call _ _ _ _ h Hr Hv) by done.
    cbv zeta. change (timeout (SetDefaultTimeout s d)) with d.
    destruct (Z.ltb_spec 0 d); [lia|].
    by rewrite handleAsync_no_deadline.
Qed.

Lemma negative_timeout_unbounded_witness :
  let data := Raw (call "slow" (JNumber "100") (JString "1")) in
  -1 < 0 /\
  ServeRequest (SetDefaultTimeout example_server (-1)) (in_order 0) data =
  ServeRequest (SetDefaultTimeout example_server 0) (in_order 0) data.
Proof.
  intros data. split; [reflexivity|].
  exact (proj1 (negative_timeout_unbounded example_server (-1) eq_refl)
           (in_order 0) data).
Defined.

(** ** Batches *)

Section batch.
Context (s : server) (sch : schedule) (rs : list RawMessage).

Lemma length_finish order : forall rsps,
  length (foldl (finish s sch rs) rsps order) = length rsps.
Proof.
  induction order as [|i order IH]; intros rsps; [done|]. simpl.
  rewrite IH. unfold finish. destruct (rs !! i); [|done].
  by rewrite length_insert.
Qed.

(** Once the goroutine of index [i] has finished, [rsps[i]] holds its
    response, whatever finished before or after it. *)
Lemma lookup_finish order : forall rsps i raw,
  length rsps = length rs -> i ∈ order -> rs !! i = Some raw ->
  foldl (finish s sch rs) rsps order !! i =
    Some (serveSingleRequest s (delays_of sch i) raw).
Proof.
  induction order as [|j order IH] using rev_ind; intros rsps i raw Hlen Hi Hraw.
  - by apply elem_of_nil in Hi.
  - rewrite foldl_app. simpl. unfold finish at 1.
    destruct (decide (i = j)) as [<-|Hne].
    + rewrite Hraw. apply list_lookup_insert_eq.
      rewrite length_finish, Hlen. by eapply lookup_lt_Some.
    + apply elem_of_app in Hi as [Hi|Hi%list_elem_of_singleton]; [|done].
      destruct (rs !! j); [rewrite list_lookup_insert_ne by done|]; by apply IH.
Qed.

(** When every goroutine has finished, [rsps] holds the responses at the
    indices of their requests. *)
Lemma all_finished :
  finish_order sch ≡ₚ seq 0 (length rs) ->
  foldl (finish s sch rs) (replicate (length rs) RawNil) (finish_order sch)
  = imap (fun i raw => serveSingleRequest s (delays_of sch i) raw) rs.
Proof.
  intros Hperm. apply list_eq. intros i. rewrite list_lookup_imap.
  destruct (rs !! i) as [raw|] eqn:Hraw; simpl.
  - apply lookup_finish; [by rewrite length_replicate| |done].
    rewrite Hperm. apply elem_of_seq. apply lookup_lt_Some in Hraw. lia.
  - apply lookup_ge_None. rewrite length_finish, length_replicate.
    by apply lookup_ge_None.
Qed.

(** Responses that are all nil stay so. *)
Lemma finish_all_nil order : forall rsps,
  (forall i raw, rs !! i = Some raw ->
                 serveSingleRequest s (delays_of sch i) raw = RawNil) ->
  Forall (eq RawNil) rsps ->
  Forall (eq RawNil) (foldl (finish s sch rs) rsps order).
Proof.
  induction order as [|i order IH]; intros rsps Hnil Hall; [done|]. simpl.
  apply IH; [done|]. unfold finish.
  destruct (rs !! i) as [raw|] eqn:Hraw; [|done].
  apply Forall_insert; [done|]. symmetry. by apply Hnil.
Qed.

End batch.

Lemma collect_from rsps : forall result,
  foldl (fun result rsp => if is_nil rsp then result else (result ++ [rsp])%list)
    result rsps = (result ++ collect rsps)%list.
Proof.
  unfold collect.
  induction rsps as [|rsp rsps IH]; intros result; simpl.
  - by rewrite app_nil_r.
  - destruct (is_nil rsp); [done|].
    rewrite (IH (result ++ [rsp])%list), (IH [rsp]). by rewrite <- app_assoc.
Qed.

(** The loop keeps the responses that are not nil, in the order of the
    slice. *)
Lemma collect_values rsps :
  Forall (fun rsp => rsp <> RawBad) rsps ->
  collect rsps = Raw <$> omap raw_value rsps.
Proof.
  induction 1 as [|rsp rsps Hrsp _ IH]; [done|].
  unfold collect. simpl. rewrite collect_from, IH.
  by destruct rsp.
Qed.

Lemma collect_all_nil rsps : Forall (eq RawNil) rsps -> collect rsps = [].
Proof.
  induction 1 as [|rsp rsps <- _ IH]; [done|].
  unfold collect. simpl. by rewrite collect_from, IH.
Qed.

Lemma Marshal_slice_values vs : Marshal_slice (Raw <$> vs) = Some (JArray vs).
Proof.
  unfold Marshal_slice. by rewrite mapM_fmap_Some.
Qed.

(** C4.  For a payload that decodes as a batch with at least one element,
    whatever the order in which the goroutines of the elements finish, the
    output is the array of the responses that are not suppressed, each at
    the place its request has among them in the payload (and nothing is
    output when there is none). *)
Theorem batch_keeps_input_order s sch data rs :
  Unmarshal_slice data = Some rs -> rs <> [] ->
  finish_order sch ≡ₚ seq 0 (length rs) ->
  ServeRequest s sch data =
    match omap raw_value
            (imap (fun i raw => serveSingleRequest s (delays_of sch i) raw) rs) with
    | [] => RawNil
    | vs => Raw (JArray vs)
    end.
Proof.
  intros Hrs Hne Hperm. unfold ServeRequest. rewrite Hrs.
  destruct rs as [|raw0 rs']; [done|]. set (rs := raw0 :: rs') in *.
  change (length rs =? 0)%nat with false. cbv iota.
  unfold serveBatchRequest. cbv zeta.
  rewrite all_finished by done.
  rewrite collect_values.
  - rewrite Marshal_slice_values, length_fmap.
    by destruct (omap raw_value _).
  - apply Forall_forall. intros rsp [i [raw [-> _]]]%elem_of_lookup_imap.
    apply serveSingleRequest_not_bad.
Qed.

Lemma batch_keeps_input_order_witness :
  let slow := call "slow" (JNumber "100") (JString "1") in
  let quiet := notification "echo" (JNumber "100") in
  let fast := call "fast" (JNumber "1") (JString "2") in
  let data := Raw (JArray [slow; quiet; fast]) in
  let rs := [Raw slow; Raw quiet; Raw fast] in
  Unmarshal_slice data = Some rs /\
  rs <> [] /\
  finish_order (last_first 3) ≡ₚ seq 0 (length rs) /\
  ServeRequest example_server (last_first 3) data =
    Raw (JArray [error_object (JString "1") (-32000) "context deadline exceeded";
                 result_object (JString "2") (JString "ok")]).
Proof.
  intros slow quiet fast data rs.
  assert (Hrs : Unmarshal_slice data = Some rs) by reflexivity.
  assert (Hne : rs <> []) by discriminate.
  assert (Hperm : finish_order (last_first 3) ≡ₚ seq 0 (length rs))
    by apply reverse_Permutation.
  split; [exact Hrs|]. split; [exact Hne|]. split; [exact Hperm|].
  etrans; [exact (batch_keeps_input_order example_server (last_first 3)
                    data rs Hrs Hne Hperm)|].
  vm_compute. reflexivity.
Defined.

(** C9.  For a payload that decodes as a batch with at least one element,
    when the response of every element is suppressed (as it is when they
    are all notifications) nothing is output: not an empty array. *)
Theorem batch_all_suppressed s sch data rs :
  Unmarshal_slice data = Some rs -> rs <> [] ->
  (forall i raw, rs !! i = Some raw ->
                 serveSingleRequest s (delays_of sch i) raw = RawNil) ->
  ServeRequest s sch data = RawNil.
Proof.
  intros Hrs Hne Hnil. unfold ServeRequest. rewrite Hrs.
  destruct rs as [|raw0 rs']; [done|]. set (rs := raw0 :: rs') in *.
  change (length rs =? 0)%nat with false. cbv iota.
  unfold serveBatchRequest. cbv zeta.
  rewrite collect_all_nil; [done|].
  apply finish_all_nil; [done|]. apply Forall_replicate_eq.
Qed.

Lemma batch_all_suppressed_witness :
  let first := notification "echo" (JNumber "100") in
  let second := notification "slow" (JNumber "100") in
  let data := Raw (JArray [first; second]) in
  let rs := [Raw first; Raw second] in
  Unmarshal_slice data = Some rs /\
  rs <> [] /\
  (forall i raw, rs !! i = Some raw ->
     serveSingleRequest example_server (delays_of (in_order 2) i) raw = RawNil) /\
  ServeRequest example_server (in_order 2) data = RawNil.
Proof.
  intros first second data rs.
  assert (Hrs : Unmarshal_slice data = Some rs) by reflexivity.
  assert (Hne : rs <> []) by discriminate.
  assert (Hnil : forall i raw, rs !! i = Some raw ->
    serveSingleRequest example_server (delays_of (in_order 2) i) raw = RawNil).
  { intros [|[|i]] raw; simpl; intros [= <-]; vm_compute; reflexivity. }
  split; [exact Hrs|]. split; [exact Hne|]. split; [exact Hnil|].
  exact (batch_all_suppressed example_server (in_order 2) data rs Hrs Hne Hnil).
Defined.

(** ** From the outcome of a call to the response *)

(** C5.  In the response made for a failed call the error keeps the code
    and the message of a failure that has a code, and is the internal error
    -32000 with the failure's message otherwise; a call that did not fail
    has its result in the result field and no error.  For a request with an
    id this is what is written out. *)
Theorem failure_to_error req res id :
  ID req = Raw id ->
  (forall e,
     response.Error (makeResponse req res (Some (withCode e))) =
       Some {| ErrorCode := Code_of e; Message := Error_of e |} /\
     makeResponseJson req any_nil (Some (withCode e)) =
       Raw (error_object id (Code_of e) (Error_of e))) /\
  (forall msg,
     response.Error (makeResponse req res (Some (errorString msg))) =
       Some {| ErrorCode := -32000; Message := msg |} /\
     makeResponseJson req any_nil (Some (errorString msg)) =
       Raw (error_object id (-32000) msg)) /\
  (response.Error (makeResponse req res None) = None /\
   response.Result (makeResponse req res None) = res /\
   forall v, makeResponseJson req (any_val v) None = Raw (result_object id v)).
Proof.
  intros Hid.
  assert (Hbad : ID req <> RawBad) by (by rewrite Hid).
  assert (Hnil : is_Some (validateRequest req) \/ ID req <> RawNil)
    by (right; by rewrite Hid).
  split; [|split].
  - intros e. split; [done|].
    rewrite makeResponseJson_error by done. by rewrite Hid.
  - intros msg. split; [done|].
    rewrite makeResponseJson_error by done. by rewrite Hid.
  - split; [done|]. split; [done|]. intros v.
    unfold makeResponseJson, Marshal_response, makeResponse. simpl.
    rewrite Hid. by destruct (validateRequest req).
Qed.

Lemma failure_to_error_witness :
  let req := {| ID := Raw (JNumber "1"); Version := "2.0"; Method := "custom";
                Params := RawNil |} in
  ID req = Raw (JNumber "1") /\
  makeResponseJson req any_nil
      (Some (withCode (NewError (-32001) "My Custom Error"))) =
    Raw (error_object (JNumber "1") (-32001) "My Custom Error") /\
  makeResponseJson req any_nil (Some (errorString "boom")) =
    Raw (error_object (JNumber "1") (-32000) "boom").
Proof.
  intros req. split; [reflexivity|].
  pose proof (failure_to_error req any_nil (JNumber "1") eq_refl) as [He [Hm _]].
  split.
  - exact (proj2 (He (NewError (-32001) "My Custom Error"))).
  - exact (proj2 (Hm "boom")).
Defined.

(** ** The shape of a response *)

(** Whatever is encoded has the id and the version of the response. *)
Lemma Marshal_response_id_version r v :
  Marshal_response r = Some v ->
  member "id" (members v) = Marshal_RawMessage (response.ID r) /\
  member "jsonrpc" (members v) = Some (JString (response.Version r)).
Proof.
  unfold Marshal_response. intros H.
  destruct (Marshal_RawMessage (response.ID r)) as [id|]; [|done]. simpl in H.
  destruct (response.Result r); simpl in H; by simplify_eq.
Qed.

(** A response of [makeResponseJson] carries an id, null when the request
    has none, and the version "2.0". *)
Lemma makeResponseJson_id_version req res e v :
  makeResponseJson req res e = Raw v ->
  member "id" (members v) = Some (id_value (ID req)) /\
  member "jsonrpc" (members v) = Some (JString "2.0").
Proof.
  unfold makeResponseJson. intros H.
  assert (Hm : Marshal_response (makeResponse req res e) = Some v).
  { destruct (validateRequest req), (ID req),
      (Marshal_response (makeResponse req res e)); by simplify_eq. }
  apply Marshal_response_id_version in Hm as [Hid Hver]. simpl in *.
  split; [|done]. rewrite Hid.
  destruct (ID req) eqn:E; try done.
  unfold Marshal_response in *. simpl in *.
  destruct (validateRequest req); rewrite E in H; done.
Qed.

(** C7, at the inputs where it fails.  A handler that returns nil and no
    error is answered for by an object with neither a result nor an error;
    a handler that returns a value with its error, by an object with
    both. *)
Theorem response_neither_or_both :
  ServeRequest example_server (in_order 0)
      (Raw (call "silent" JNull (JNumber "1"))) =
    Raw (JObject [("id", JNumber "1"); ("jsonrpc", JString "2.0")]) /\
  ServeRequest example_server (in_order 0)
      (Raw (call "partial" JNull (JNumber "1"))) =
    Raw (JObject [("id", JNumber "1"); ("jsonrpc", JString "2.0");
                  ("result", JNumber "0");
                  ("error", JObject [("code", Marshal_int (-32000));
                                     ("message", JString "half done")])]).
Proof. split; vm_compute; reflexivity. Qed.

(** ** Reading a response back *)

#[local] Arguments Marshal_int : simpl never.
#[local] Arguments as_int : simpl never.

Lemma as_int_Marshal_int n : as_int (Marshal_int n) = Some n.
Proof.
  unfold as_int, Marshal_int. rewrite NilEmpty.isi. simpl.
  by rewrite DecimalZ.of_to.
Qed.

(** C8, as the code has it.  A response that the encoder accepts, whether
    it holds a result, an error, both or neither, is read back from its
    encoding as it was written: with each of its fields, the id of a
    response that has none (a nil id) being the null it is written as.  A
    response whose id is not nil is read back as it was. *)
Theorem response_roundtrip r v :
  Marshal_response r = Some v ->
  Unmarshal_response v = Some (as_written r) /\
  (response.ID r <> RawNil -> as_written r = r).
Proof.
  destruct r as [rid version res error]. unfold Marshal_response, as_written.
  simpl. intros H.
  destruct rid as [| |id]; [|done|];
    (destruct res as [|x|]; [| |done]);
    destruct error as [[code message]|]; simpl in H; simplify_eq; simpl;
    rewrite ?as_int_Marshal_int; done.
Qed.

Lemma response_roundtrip_witness :
  let r := makeResponse zero_request any_nil (Some (withCode ErrParseError)) in
  let v := error_object JNull (-32700) "Parse error" in
  Marshal_response r = Some v /\
  Unmarshal_response v =
    Some {| response.ID := Raw JNull; response.Version := "2.0";
            response.Result := any_nil;
            response.Error := Some ErrParseError |}.
Proof.
  intros r v. split; [reflexivity|].
  exact (proj1 (response_roundtrip r v eq_refl)).
Defined.

(** C8, as the specification states it, fails: a response whose result the
    encoder rejects has no encoding, and nothing is read back.  The server
    then returns nil for it. *)
Lemma roundtrip_unencodable :
  let req := {| ID := Raw (JNumber "1"); Version := "2.0"; Method := "echo";
                Params := RawNil |} in
  let r := makeResponse req any_bad None in
  Marshal_response r = None /\
  Marshal_response r ≫= Unmarshal_response <> Some r /\
  makeResponseJson req any_bad None = RawNil.
Proof. intros req r. repeat split. discriminate. Qed.

(** * Further properties of the server *)

(** ** Errors of the protocol *)

(** X1.  A payload that decodes neither as a batch nor as a request is
    answered with one object: the error -32700 "Parse error" with the id
    null. *)
Theorem parse_error_response s sch data :
  Unmarshal_slice data = None -> Unmarshal_request data = None ->
  ServeRequest s sch data = Raw (error_object JNull (-32700) "Parse error").
Proof.
  intros Hs Hr. unfold ServeRequest, serveSingleRequest. by rewrite Hs, Hr.
Qed.

Lemma parse_error_response_witness :
  Unmarshal_slice RawBad = None /\ Unmarshal_request RawBad = None /\
  ServeRequest example_server (in_order 0) RawBad =
    Raw (error_object JNull (-32700) "Parse error").
Proof.
  split; [reflexivity|]. split; [reflexivity|].
  exact (parse_error_response example_server (in_order 0) RawBad eq_refl eq_refl).
Defined.

(** X2.  A valid request with an id whose method has no handler is answered
    with the error -32601 "Method not found" under the id of the request,
    whatever the timeout. *)
Theorem method_not_found_response s sch data r id :
  Unmarshal_request data = Some r -> validateRequest r = None ->
  ID r = Raw id -> handlers s !! Method r = None ->
  ServeRequest s sch data = Raw (error_object id (-32601) "Method not found").
Proof.
  intros Hr Hv Hid Hh. unfold ServeRequest.
  rewrite (valid_request_not_batch _ _ Hr Hv).
  unfold serveSingleRequest. rewrite Hr, Hv, Hh.
  rewrite makeResponseJson_error; rewrite Hid; [done|done|by right].
Qed.

Lemma method_not_found_response_witness :
  let data := Raw (call "no way" (JString "hi") JNull) in
  let r := {| ID := Raw JNull; Version := "2.0"; Method := "no way";
              Params := Raw (JString "hi") |} in
  Unmarshal_request data = Some r /\ validateRequest r = None /\
  ID r = Raw JNull /\ handlers example_server !! Method r = None /\
  ServeRequest example_server (in_order 0) data =
    Raw (error_object JNull (-32601) "Method not found").
Proof.
  intros data r.
  assert (Hh : handlers example_server !! Method r = None)
    by (vm_compute; reflexivity).
  split; [reflexivity|]. split; [reflexivity|]. split; [reflexivity|].
  split; [exact Hh|].
  exact (method_not_found_response example_server (in_order 0) data r JNull
           eq_refl eq_refl eq_refl Hh).
Defined.

(** The response to a valid request is made by [makeResponseJson] from that
    request, on each of the paths. *)
Lemma serveSingleRequest_valid s dl data r :
  Unmarshal_request data = Some r -> validateRequest r = None ->
  exists res e, serveSingleRequest s dl data = makeResponseJson r res e.
Proof.
  intros Hr Hv. unfold serveSingleRequest. rewrite Hr, Hv.
  destruct (handlers s !! Method r); [|by eauto].
  destruct (handleAsync _ _ _ _). by eauto.
Qed.

(** X3.  Whenever a valid request is answered, the request has an id, and
    the response carries that id and the version "2.0": on success, on
    failure of the handler, on a timeout and when the method is unknown. *)
Theorem response_echoes_id s sch data r v :
  Unmarshal_request data = Some r -> validateRequest r = None ->
  ServeRequest s sch data = Raw v ->
  exists id, ID r = Raw id /\
             member "id" (members v) = Some id /\
             member "jsonrpc" (members v) = Some (JString "2.0").
Proof.
  intros Hr Hv. unfold ServeRequest.
  rewrite (valid_request_not_batch _ _ Hr Hv).
  destruct (serveSingleRequest_valid s (delays_of sch 0) _ _ Hr Hv) as (res & e & ->).
  intros Hresp.
  destruct (makeResponseJson_id_version _ _ _ _ Hresp) as [Hid Hver].
  pose proof (Unmarshal_request_ID _ _ Hr) as Hbad.
  destruct (ID r) as [| |id] eqn:Eid; [|done|by eauto].
  by rewrite (makeResponseJson_notification r res e) in Hresp.
Qed.

Lemma response_echoes_id_witness :
  let data := Raw (call "slow" (JNumber "100") (JString "7")) in
  let r := {| ID := Raw (JString "7"); Version := "2.0"; Method := "slow";
              Params := Raw (JNumber "100") |} in
  let v := error_object (JString "7") (-32000) "context deadline exceeded" in
  Unmarshal_request data = Some r /\ validateRequest r = None /\
  ServeRequest example_server (in_order 0) data = Raw v /\
  exists id, ID r = Raw id /\ member "id" (members v) = Some id /\
             member "jsonrpc" (members v) = Some (JString "2.0").
Proof.
  intros data r v.
  assert (Hs : ServeRequest example_server (in_order 0) data = Raw v)
    by (vm_compute; reflexivity).
  split; [reflexivity|]. split; [reflexivity|]. split; [exact Hs|].
  exact (response_echoes_id example_server (in_order 0) data r v
           eq_refl eq_refl Hs).
Defined.

(** ** When nothing is returned *)

(** X4.  [makeResponseJson] returns nil in exactly three cases: the request
    is a notification (valid, with a nil id); the result cannot be encoded;
    the id is not well-formed JSON.  In the last two the error of the
    encoder is dropped and the caller gets no response, even to a request
    with an id. *)
Theorem makeResponseJson_nil_iff req res e :
  makeResponseJson req res e = RawNil <->
  (validateRequest req = None /\ ID req = RawNil) \/
  res = any_bad \/ ID req = RawBad.
Proof.
  unfold makeResponseJson, Marshal_response, makeResponse. simpl.
  destruct (validateRequest req) as [e'|], (ID req) as [| |id], res as [|v|];
    simpl; split; intros H; try done; try (by auto);
    destruct H as [[? ?]|[?|?]]; done.
Qed.

(** X5.  What is written for a request that is answered: the object has a
    result member exactly when the result is not nil, and an error member
    exactly when there is an error, so that it has one of the two and not
    the other exactly when the call ended with a value or with an error,
    not both and not neither. *)
Theorem result_and_error_members req res e v :
  makeResponseJson req res e = Raw v ->
  (is_Some (member "result" (members v)) <-> res <> any_nil) /\
  (is_Some (member "error" (members v)) <-> is_Some e).
Proof.
  unfold makeResponseJson, Marshal_response, makeResponse. simpl.
  intros H.
  assert (Hv : exists id,
    v = JObject ([("id", id); ("jsonrpc", JString "2.0")]
                 ++ match res with
                    | any_nil => []
                    | any_val x => [("result", x)]
                    | any_bad => []
                    end
                 ++ match e with
                    | Some (withCode c) =>
                        [("error", Marshal_rpcError (NewError (Code_of c) (Error_of c)))]
                    | Some (errorString msg) =>
                        [("error", Marshal_rpcError (NewInternalError msg))]
                    | None => []
                    end)%list /\ res <> any_bad).
  { destruct (validateRequest req), (ID req) as [| |id], res, e as [[]|];
      simpl in H; simplify_eq; eauto. }
  destruct Hv as (id & -> & Hres).
  destruct res; [| |done]; destruct e as [[]|]; simpl; split;
    rewrite ?is_Some_alt; split; done.
Qed.

Lemma result_and_error_members_witness :
  let req := {| ID := Raw (JNumber "1"); Version := "2.0"; Method := "partial";
                Params := RawNil |} in
  let v := JObject [("id", JNumber "1"); ("jsonrpc", JString "2.0");
                    ("result", JNumber "0");
                    ("error", Marshal_rpcError (NewInternalError "half done"))] in
  makeResponseJson req (any_val (JNumber "0")) (Some (errorString "half done"))
    = Raw v /\
  (is_Some (member "result" (members v)) <-> any_val (JNumber "0") <> any_nil) /\
  (is_Some (member "error" (members v)) <->
     is_Some (Some (errorString "half done"))).
Proof.
  intros req v. split; [reflexivity|].
  exact (result_and_error_members req (any_val (JNumber "0"))
           (Some (errorString "half done")) v eq_refl).
Defined.

(** ** Registering methods *)

(** X6.  After [DefineMethod s m h] a valid request for [m] is run by [h],
    whatever was registered under [m] before: its response is made from
    what [handleAsync] returns for [h], under the timeout of [s]. *)
Theorem DefineMethod_dispatch s m h dl data r :
  Unmarshal_request data = Some r -> validateRequest r = None ->
  Method r = m ->
  serveSingleRequest (DefineMethod s m h) dl data =
    let ctx := if 0 <? timeout s then WithTimeout Background (timeout s)
               else Background in
    let '(result, err) := handleAsync dl ctx h (Params r) in
    makeResponseJson r result err.
Proof.
  intros Hr Hv <-.
  rewrite (serveSingleRequest_call _ _ _ _ h Hr Hv); [done|].
  apply lookup_insert_eq.
Qed.

Lemma DefineMethod_dispatch_witness :
  let data := Raw (call "echo" (JString "hi") (JNumber "1")) in
  let r := {| ID := Raw (JNumber "1"); Version := "2.0"; Method := "echo";
              Params := Raw (JString "hi") |} in
  Unmarshal_request data = Some r /\ validateRequest r = None /\
  Method r = "echo" /\
  serveSingleRequest (DefineMethod example_server "echo" silent) sluggish data =
    Raw (JObject [("id", JNumber "1"); ("jsonrpc", JString "2.0")]).
Proof.
  intros data r.
  split; [reflexivity|]. split; [reflexivity|]. split; [reflexivity|].
  etrans; [exact (DefineMethod_dispatch example_server "echo" silent sluggish
                    data r eq_refl eq_refl eq_refl)|].
  vm_compute. reflexivity.
Defined.

(** X7.  [DefineMethod s m h] changes nothing for the payloads that do not
    decode into a request for [m]: they are answered as by [s]. *)
Theorem DefineMethod_other_methods s m h dl data :
  (forall r, Unmarshal_request data = Some r -> Method r <> m) ->
  serveSingleRequest (DefineMethod s m h) dl data =
  serveSingleRequest s dl data.
Proof.
  intros Hm. unfold serveSingleRequest.
  destruct (Unmarshal_request data) as [r|]; [|done].
  destruct (validateRequest r); [done|].
  simpl. rewrite lookup_insert_ne; [done|].
  intros Heq. by apply (Hm r).
Qed.

Lemma DefineMethod_other_methods_witness :
  let data := Raw (call "echo" (JString "hi") (JNumber "1")) in
  (forall r, Unmarshal_request data = Some r -> Method r <> "slow") /\
  serveSingleRequest (DefineMethod example_server "slow" silent) sluggish data =
  serveSingleRequest example_server sluggish data.
Proof.
  intros data.
  assert (Hm : forall r, Unmarshal_request data = Some r -> Method r <> "slow")
    by (intros r [= <-]; discriminate).
  split; [exact Hm|].
  exact (DefineMethod_other_methods example_server "slow" silent sluggish data Hm).
Defined.

(** X8.  Registering twice under one name leaves the server that the
    second registration alone gives, and registrations under two names can
    be made in either order. *)
Theorem DefineMethod_order s m1 h1 m2 h2 :
  DefineMethod (DefineMethod s m1 h1) m1 h2 = DefineMethod s m1 h2 /\
  (m1 <> m2 ->
   DefineMethod (DefineMethod s m1 h1) m2 h2 =
   DefineMethod (DefineMethod s m2 h2) m1 h1).
Proof.
  unfold DefineMethod. simpl. split.
  - by rewrite insert_insert_eq.
  - intros Hne. f_equal. by apply insert_insert_ne.
Qed.

Lemma DefineMethod_order_witness :
  "echo" <> "slow" /\
  DefineMethod (DefineMethod NewServer "echo" echo) "slow" (sleeps 1) =
  DefineMethod (DefineMethod NewServer "slow" (sleeps 1)) "echo" echo.
Proof.
  assert (Hne : "echo" <> "slow") by discriminate.
  split; [exact Hne|].
  exact (proj2 (DefineMethod_order NewServer "echo" echo "slow" (sleeps 1)) Hne).
Defined.

(** X9.  A request that does not reach a handler is answered the same way
    under every timeout and every choice of the runtime: this holds for the
    payloads that do not decode, for the requests that fail validation and
    for the methods that are not registered. *)
Theorem protocol_errors_ignore_timeout s d dl dl' data :
  (forall r, Unmarshal_request data = Some r -> validateRequest r = None ->
             handlers s !! Method r = None) ->
  serveSingleRequest (SetDefaultTimeout s d) dl data =
  serveSingleRequest s dl' data.
Proof.
  intros Hh. unfold serveSingleRequest.
  destruct (Unmarshal_request data) as [r|]; [|done].
  destruct (validateRequest r) eqn:Hv; [done|].
  simpl. by rewrite (Hh r eq_refl Hv).
Qed.

Lemma protocol_errors_ignore_timeout_witness :
  let data := Raw (JObject [("method", JString "echo"); ("id", JNumber "3")]) in
  (forall r, Unmarshal_request data = Some r -> validateRequest r = None ->
             handlers example_server !! Method r = None) /\
  serveSingleRequest (SetDefaultTimeout example_server 1) prompt data =
  serveSingleRequest example_server sluggish data.
Proof.
  intros data.
  assert (Hh : forall r, Unmarshal_request data = Some r ->
    validateRequest r = None -> handlers example_server !! Method r = None)
    by (intros r [= <-]; discriminate).
  split; [exact Hh|].
  exact (protocol_errors_ignore_timeout example_server 1 prompt sluggish data Hh).
Defined.

(** ** What [ServeRequest] returns *)

Lemma makeResponseJson_object req res e :
  makeResponseJson req res e = RawNil \/
  exists ms, makeResponseJson req res e = Raw (JObject ms).
Proof.
  assert (Hm : forall r v, Marshal_response r = Some v -> exists ms, v = JObject ms).
  { unfold Marshal_response. intros r v H.
    destruct (Marshal_RawMessage (response.ID r)); [|done]. simpl in H.
    destruct (response.Result r); simpl in H; simplify_eq; by eexists. }
  unfold makeResponseJson.
  destruct (Marshal_response (makeResponse req res e)) as [v|] eqn:Ev.
  - destruct (Hm _ _ Ev) as [ms ->].
    destruct (validateRequest req), (ID req); eauto.
  - destruct (validateRequest req), (ID req); eauto.
Qed.

Lemma serveSingleRequest_object s dl data :
  serveSingleRequest s dl data = RawNil \/
  exists ms, serveSingleRequest s dl data = Raw (JObject ms).
Proof.
  unfold serveSingleRequest.
  destruct (Unmarshal_request data) as [r|]; [|apply makeResponseJson_object].
  destruct (validateRequest r); [apply makeResponseJson_object|].
  destruct (handlers s !! Method r); [|apply makeResponseJson_object].
  destruct (handleAsync _ _ _ _). apply makeResponseJson_object.
Qed.

(** Whatever goroutines have finished, each entry of [rsps] is nil or an
    object. *)
Lemma finish_objects s sch rs order : forall rsps,
  Forall (fun m => m = RawNil \/ exists ms, m = Raw (JObject ms)) rsps ->
  Forall (fun m => m = RawNil \/ exists ms, m = Raw (JObject ms))
    (foldl (finish s sch rs) rsps order).
Proof.
  induction order as [|i order IH]; intros rsps Hall; [done|]. simpl.
  apply IH. unfold finish. destruct (rs !! i); [|done].
  apply Forall_insert; [done|]. apply serveSingleRequest_object.
Qed.

(** X10.  [ServeRequest] returns nil, or one object, or an array; an
    array is returned to a batch only, it is never empty and its elements
    are objects.  This holds for every payload and every schedule. *)
Theorem ServeRequest_shape s sch data :
  ServeRequest s sch data = RawNil \/
  (exists ms, ServeRequest s sch data = Raw (JObject ms)) \/
  (exists v vs, ServeRequest s sch data = Raw (JArray (v :: vs)) /\
                Forall (fun x => exists ms, x = JObject ms) (v :: vs) /\
                is_Some (Unmarshal_slice data)).
Proof.
  unfold ServeRequest.
  destruct (Unmarshal_slice data) as [arr|] eqn:Harr.
  - destruct (length arr =? 0)%nat.
    { right. left. by eexists. }
    unfold serveBatchRequest. cbv zeta.
    set (rsps := foldl _ _ _).
    assert (Hobj : Forall (fun m => m = RawNil \/ exists ms, m = Raw (JObject ms))
                     rsps).
    { apply finish_objects, Forall_replicate. by left. }
    rewrite collect_values.
    2:{ eapply Forall_impl; [exact Hobj|]. by intros m [->|[ms ->]]. }
    rewrite Marshal_slice_values, length_fmap.
    assert (Hvs : Forall (fun x => exists ms, x = JObject ms)
                    (omap raw_value rsps)).
    { apply Forall_forall. intros x (m & Hm & Hx)%list_elem_of_omap.
      rewrite Forall_forall in Hobj.
      destruct (Hobj m Hm) as [->|[ms ->]]; [done|].
      injection Hx as <-. by eexists. }
    destruct (omap raw_value rsps) as [|v vs]; [by left|].
    right. right. exists v, vs. by eauto.
  - destruct (serveSingleRequest_object s (delays_of sch 0) data) as [->|[ms ->]];
      [by left|right; left; by eexists].
Qed.

(** X11.  Only an object, or null, can be a request: any other JSON value,
    an array among them, is answered with the error -32700 "Parse error"
    under the id null.  A batch inside a batch is therefore not served. *)
Theorem not_an_object_parse_error s dl v :
  (forall ms, v <> JObject ms) -> v <> JNull ->
  serveSingleRequest s dl (Raw v) =
    Raw (error_object JNull (-32700) "Parse error").
Proof.
  intros Hobj Hnull. unfold serveSingleRequest.
  destruct v; try done. by destruct (Hobj members0).
Qed.

Lemma not_an_object_parse_error_witness :
  let v := JArray [call "echo" (JString "hi") (JNumber "1")] in
  (forall ms, v <> JObject ms) /\ v <> JNull /\
  serveSingleRequest example_server sluggish (Raw v) =
    Raw (error_object JNull (-32700) "Parse error").
Proof.
  intros v.
  assert (Hobj : forall ms, v <> JObject ms) by discriminate.
  assert (Hnull : v <> JNull) by discriminate.
  split; [exact Hobj|]. split; [exact Hnull|].
  exact (not_an_object_parse_error example_server sluggish v Hobj Hnull).
Defined.

(** The answer to an element that does not decode, or decodes into a
    request that fails validation. *)
Lemma serveSingleRequest_rejected s dl raw :
  (forall r, Unmarshal_request raw = Some r -> is_Some (validateRequest r)) ->
  serveSingleRequest s dl raw =
    Raw (match Unmarshal_request raw with
         | None => error_object JNull (-32700) "Parse error"
         | Some r => error_object (id_value (ID r)) (-32600) "Invalid request"
         end).
Proof.
  intros Hrej. unfold serveSingleRequest.
  destruct (Unmarshal_request raw) as [r|] eqn:Hr; [|done].
  destruct (Hrej r eq_refl) as [e He]. rewrite He.
  rewrite (validateRequest_error _ _ He).
  rewrite makeResponseJson_error; [done| |].
  - by eapply Unmarshal_request_ID.
  - left. by rewrite He.
Qed.

(** X12.  In a batch, an element that does not decode into a request, or
    decodes into one that fails validation, always has its error in the
    output array, -32700 or -32600, whatever the other elements are and
    whatever the order in which the elements finish: the batch is
    answered. *)
Theorem batch_rejected_element s sch data rs i raw :
  Unmarshal_slice data = Some rs ->
  finish_order sch ≡ₚ seq 0 (length rs) ->
  rs !! i = Some raw ->
  (forall r, Unmarshal_request raw = Some r -> is_Some (validateRequest r)) ->
  exists vs,
    ServeRequest s sch data = Raw (JArray vs) /\
    match Unmarshal_request raw with
    | None => error_object JNull (-32700) "Parse error"
    | Some r => error_object (id_value (ID r)) (-32600) "Invalid request"
    end ∈ vs.
Proof.
  intros Hrs Hperm Hi Hrej. unfold ServeRequest. rewrite Hrs.
  destruct rs as [|raw0 rs']; [done|]. set (rs := raw0 :: rs') in *.
  change (length rs =? 0)%nat with false. cbv iota.
  unfold serveBatchRequest. cbv zeta.
  rewrite all_finished by done.
  rewrite collect_values.
  2:{ apply Forall_forall. intros rsp [j [x [-> _]]]%elem_of_lookup_imap.
      apply serveSingleRequest_not_bad. }
  rewrite Marshal_slice_values, length_fmap.
  set (vs := omap raw_value _).
  assert (Hin : match Unmarshal_request raw with
                | None => error_object JNull (-32700) "Parse error"
                | Some r => error_object (id_value (ID r)) (-32600)
                              "Invalid request"
                end ∈ vs).
  { apply list_elem_of_omap.
    exists (serveSingleRequest s (delays_of sch i) raw). split.
    - by apply (elem_of_lookup_imap_2
                  (fun i raw => serveSingleRequest s (delays_of sch i) raw) rs raw i).
    - by rewrite (serveSingleRequest_rejected _ _ _ Hrej). }
  exists vs. split; [|done].
  destruct vs; [by apply elem_of_nil in Hin|done].
Qed.

Lemma batch_rejected_element_witness :
  let good := call "echo" (JString "hi") (JString "1") in
  let data := Raw (JArray [JNumber "1"; good]) in
  let rs := [Raw (JNumber "1"); Raw good] in
  Unmarshal_slice data = Some rs /\
  finish_order (last_first 2) ≡ₚ seq 0 (length rs) /\
  rs !! 0%nat = Some (Raw (JNumber "1")) /\
  (forall r, Unmarshal_request (Raw (JNumber "1")) = Some r ->
             is_Some (validateRequest r)) /\
  exists vs,
    ServeRequest example_server (last_first 2) data = Raw (JArray vs) /\
    error_object JNull (-32700) "Parse error" ∈ vs.
Proof.
  intros good data rs.
  assert (Hperm : finish_order (last_first 2) ≡ₚ seq 0 (length rs))
    by apply reverse_Permutation.
  assert (Hrej : forall r, Unmarshal_request (Raw (JNumber "1")) = Some r ->
                           is_Some (validateRequest r)) by discriminate.
  split; [reflexivity|]. split; [exact Hperm|]. split; [reflexivity|].
  split; [exact Hrej|].
  exact (batch_rejected_element example_server (last_first 2) data rs 0
           (Raw (JNumber "1")) eq_refl Hperm eq_refl Hrej).
Defined.

(** ** A server with no method, and the echo of [main.go] *)

(** X13.  On a new server, whatever timeout is then set, every valid
    request with an id is answered with the error -32601 "Method not
    found". *)
Theorem NewServer_no_method d sch data r id :
  Unmarshal_request data = Some r -> validateRequest r = None ->
  ID r = Raw id ->
  ServeRequest (SetDefaultTimeout NewServer d) sch data =
    Raw (error_object id (-32601) "Method not found").
Proof.
  intros Hr Hv Hid. unfold ServeRequest.
  rewrite (valid_request_not_batch _ _ Hr Hv).
  unfold serveSingleRequest. rewrite Hr, Hv. simpl.
  rewrite lookup_empty.
  rewrite makeResponseJson_error; rewrite Hid; [done|done|by right].
Qed.

Lemma NewServer_no_method_witness :
  let data := Raw (call "echo" (JString "hi") (JNumber "1")) in
  let r := {| ID := Raw (JNumber "1"); Version := "2.0"; Method := "echo";
              Params := Raw (JString "hi") |} in
  Unmarshal_request data = Some r /\ validateRequest r = None /\
  ID r = Raw (JNumber "1") /\
  ServeRequest (SetDefaultTimeout NewServer 5000000) (in_order 0) data =
    Raw (error_object (JNumber "1") (-32601) "Method not found").
Proof.
  intros data r.
  split; [reflexivity|]. split; [reflexivity|]. split; [reflexivity|].
  exact (NewServer_no_method 5000000 (in_order 0) data r (JNumber "1")
           eq_refl eq_refl eq_refl).
Defined.

(** X14.  With no timeout set and [echo] registered under "echo", a call
    with params and an id is answered with its params as the result, under
    its id; a call that has no params is answered with the result null. *)
Theorem echo_returns_params s sch params id :
  timeout s <= 0 -> handlers s !! "echo" = Some echo ->
  ServeRequest s sch (Raw (call "echo" params id)) =
    Raw (result_object id params) /\
  ServeRequest s sch
      (Raw (JObject [("jsonrpc", JString "2.0"); ("method", JString "echo");
                     ("id", id)])) =
    Raw (result_object id JNull).
Proof.
  intros Ht Hecho. unfold ServeRequest, serveSingleRequest. simpl.
  rewrite Hecho. destruct (Z.ltb_spec 0 (timeout s)); [lia|].
  by rewrite !handleAsync_no_deadline.
Qed.

Lemma echo_returns_params_witness :
  let s := DefineMethod NewServer "echo" echo in
  timeout s <= 0 /\ handlers s !! "echo" = Some echo /\
  ServeRequest s (last_first 0)
      (Raw (call "echo" (JArray [JNumber "1"; JNumber "2"]) (JString "a"))) =
    Raw (result_object (JString "a") (JArray [JNumber "1"; JNumber "2"])).
Proof.
  intros s.
  assert (Ht : timeout s <= 0) by (vm_compute; discriminate).
  assert (Hecho : handlers s !! "echo" = Some echo)
    by (vm_compute; reflexivity).
  split; [exact Ht|]. split; [exact Hecho|].
  exact (proj1 (echo_returns_params s (last_first 0)
                  (JArray [JNumber "1"; JNumber "2"]) (JString "a") Ht Hecho)).
Defined.
